(** * TAF: the [repo] command group and the update/validation protocol

    The first part embeds [taf/tools/repo/__init__.py]: the [update] and
    [validate] click commands, with the calls they make to the updater
    recorded in a trace.  The second part models the protocol components
    that the commands delegate to (layout resolver, trust chain validator,
    session orchestrator). *)

From Stdlib Require Import String Ascii List Bool Arith Lia.
Import ListNotations.
Open Scope string_scope.
Open Scope list_scope.

(** ** Python values used by the commands *)

(** Exceptions that can reach the command layer.  [str(e)] is the message. *)
Inductive exn : Type :=
| UsageError (message : string)      (* click.UsageError *)
| BadParameter (message : string)    (* click.BadParameter, a UsageError *)
| ValueError (message : string)      (* Enum lookup on a non-member *)
| UpdaterError (message : string).   (* any Exception raised by the updater *)

Definition str (e : exn) : string :=
  match e with
  | UsageError m | BadParameter m | ValueError m | UpdaterError m => m
  end.

(** Result of calling a Python function for its effect. *)
Inductive call_result : Type :=
| Returns
| Raises (e : exn).

(** The values [json.dumps] is applied to: dictionaries with string keys,
    kept in insertion order. *)
Inductive json : Type :=
| JBool (b : bool)
| JStr (s : string).

Definition json_dict := list (string * json).

Inductive output : Type :=
| Text (s : string)
| JsonDumps (d : json_dict).

Module Updater.

(** Modelled from the spec: the [UpdateType] enumeration of
    [taf.updater.updater], which is imported by the command module and is
    not part of it.  Its members are the three values of the CLI surface,
    [--expected-repo-type test|official|either]. *)
Inductive UpdateType : Type := TEST | OFFICIAL | EITHER.

Definition value (t : UpdateType) : string :=
  match t with
  | TEST => "test"
  | OFFICIAL => "official"
  | EITHER => "either"
  end.

(** [UpdateType(v)]: lookup of a member by value; [None] stands for the
    [ValueError] an [Enum] raises on a value that is not a member. *)
Definition UpdateType_of (v : string) : option UpdateType :=
  if String.eqb v "test" then Some TEST
  else if String.eqb v "official" then Some OFFICIAL
  else if String.eqb v "either" then Some EITHER
  else None.

(** Arguments of [update_repository(url, clients_auth_path,
    clients_library_dir, default_branch, from_fs, update_type,
    scripts_root_dir=...)]. *)
Record update_repository_args : Type := {
  ur_url : string;
  ur_clients_auth_path : option string;
  ur_clients_library_dir : option string;
  ur_default_branch : string;
  ur_from_fs : bool;
  ur_expected_repo_type : UpdateType;
  ur_scripts_root_dir : option string
}.

(** Arguments of [validate_repository(clients_auth_path,
    clients_library_dir, default_branch, from_commit)]. *)
Record validate_repository_args : Type := {
  vr_clients_auth_path : string;
  vr_clients_library_dir : option string;
  vr_default_branch : string;
  vr_from_commit : option string
}.

End Updater.
Import Updater.

(** ** The command module *)

Module Repo.

(** Observable steps of a command run, in program order. *)
Inductive event : Type :=
| Print (o : output)
| ProfilerEnable
| AtexitRegister
| ProfilerDisable
| DumpStats (filename : string)
| CallUpdateRepository (a : update_repository_args)
| CallValidateRepository (a : validate_repository_args).

Inductive result : Type :=
| Returned
| Raised (e : exn).

Definition run : Type := (list event * result)%type.

(** Parameters of the [update] callback, after click has converted the
    command line. *)
Record update_params : Type := {
  url : string;
  clients_auth_path : option string;
  clients_library_dir : option string;
  default_branch : string;
  from_fs : bool;
  expected_repo_type : string;
  scripts_root_dir : option string;
  profile : bool;
  format_output : bool
}.

Record validate_params : Type := {
  v_clients_auth_path : string;
  v_clients_library_dir : option string;
  v_default_branch : string;
  v_from_commit : option string
}.

Definition usage_message : string :=
  "Must specify either authentication repository path or library directory!".

Definition success_data : json_dict := [("updateSuccessful", JBool true)].

Definition error_data (e : exn) : json_dict :=
  [("updateSuccessful", JBool false); ("error", JStr (str e))].

Definition profiling_setup (profile : bool) : list event :=
  if profile
  then [Print (Text "Profiling..."); ProfilerEnable; AtexitRegister]
  else [].

Definition update_args (p : update_params) (t : UpdateType)
  : update_repository_args :=
  {| ur_url := url p;
     ur_clients_auth_path := clients_auth_path p;
     ur_clients_library_dir := clients_library_dir p;
     ur_default_branch := default_branch p;
     ur_from_fs := from_fs p;
     ur_expected_repo_type := t;
     ur_scripts_root_dir := scripts_root_dir p |}.

Definition apostrophe : Ascii.ascii := Ascii.ascii_of_nat 39.
Definition double_quote : Ascii.ascii := Ascii.ascii_of_nat 34.
Definition backslash : Ascii.ascii := Ascii.ascii_of_nat 92.

Fixpoint contains (c : Ascii.ascii) (s : string) : bool :=
  match s with
  | EmptyString => false
  | String c' s' => Ascii.eqb c c' || contains c s'
  end.

Definition hex_digit (n : nat) : Ascii.ascii :=
  Ascii.ascii_of_nat (if Nat.ltb n 10 then 48 + n else 87 + n).

(** The body of [repr(s)] between the quotes [q]: the quote and the
    backslash are escaped, so are the control characters; characters
    outside ASCII are taken to be printable. *)
Fixpoint escaped (q : Ascii.ascii) (s : string) : string :=
  match s with
  | EmptyString => EmptyString
  | String c s' =>
      let n := Ascii.nat_of_ascii c in
      if Ascii.eqb c q || Ascii.eqb c backslash
      then String backslash (String c (escaped q s'))
      else if Nat.eqb n 10 then String backslash (String "n"%char (escaped q s'))
      else if Nat.eqb n 13 then String backslash (String "r"%char (escaped q s'))
      else if Nat.eqb n 9 then String backslash (String "t"%char (escaped q s'))
      else if Nat.ltb n 32 || Nat.eqb n 127
      then String backslash
             (String "x"%char (String (hex_digit (n / 16))
                            (String (hex_digit (n mod 16)) (escaped q s'))))
      else String c (escaped q s')
  end.

(** [repr] of a [str]: single quotes, unless the string has an apostrophe
    and no double quote. *)
Definition repr (s : string) : string :=
  let q := if contains apostrophe s && negb (contains double_quote s)
           then double_quote else apostrophe in
  String q (String.append (escaped q s) (String q EmptyString)).

(** The [ValueError] of an [Enum] lookup:
    ["%r is not a valid %s" % (value, cls.__qualname__)]. *)
Definition not_a_member (v : string) : exn :=
  ValueError (String.append (repr v) " is not a valid UpdateType").

Section Commands.

(** The updater's entry points are external to the command module: what
    they do is fixed by the environment the command runs in. *)
Variable update_repository : update_repository_args -> call_result.
Variable validate_repository : validate_repository_args -> call_result.

(** The [except Exception as e] clause of [update]. *)
Definition on_exception (p : update_params) (done : list event) (e : exn)
  : run :=
  if format_output p
  then (done ++ [Print (JsonDumps (error_data e))], Returned)
  else (done, Raised e).

(** The body of the [try] block of [update]: the arguments are
    evaluated, then [update_repository] is called. *)
Definition try_update (p : update_params) (done : list event) : run :=
  match UpdateType_of (expected_repo_type p) with
  | None => on_exception p done (not_a_member (expected_repo_type p))
  | Some t =>
      let a := update_args p t in
      let done' := done ++ [CallUpdateRepository a] in
      match update_repository a with
      | Returns =>
          if format_output p
          then (done' ++ [Print (JsonDumps success_data)], Returned)
          else (done', Returned)
      | Raises e => on_exception p done' e
      end
  end.

Definition update (p : update_params) : run :=
  match clients_auth_path p, clients_library_dir p with
  | None, None => ([], Raised (UsageError usage_message))
  | _, _ => try_update p (profiling_setup (profile p))
  end.

Definition validate_args (p : validate_params) : validate_repository_args :=
  {| vr_clients_auth_path := v_clients_auth_path p;
     vr_clients_library_dir := v_clients_library_dir p;
     vr_default_branch := v_default_branch p;
     vr_from_commit := v_from_commit p |}.

Definition validate (p : validate_params) : run :=
  let a := validate_args p in
  ([CallValidateRepository a],
   match validate_repository a with
   | Returns => Returned
   | Raises e => Raised e
   end).

(** *** The click layer: declared options, defaults and types *)

(** What the user typed for [update]; [None] is an omitted option. *)
Record update_invocation : Type := {
  arg_url : string;
  opt_clients_auth_path : option string;
  opt_clients_library_dir : option string;
  opt_default_branch : option string;
  flag_from_fs : bool;
  opt_expected_repo_type : option string;
  opt_scripts_root_dir : option string;
  flag_profile : bool;
  flag_format_output : bool
}.

Record validate_invocation : Type := {
  arg_clients_auth_path : string;
  vopt_clients_library_dir : option string;
  vopt_default_branch : option string;
  vopt_from_commit : option string
}.

Definition with_default (d : string) (o : option string) : string :=
  match o with
  | Some v => v
  | None => d
  end.

Definition expected_repo_type_choices : list string :=
  ["test"; "official"; "either"].

(** [click.Choice(choices)]: the value is kept when it is one of the
    choices (compared case-sensitively), refused otherwise. *)
Definition Choice (choices : list string) (v : string) : option string :=
  if existsb (String.eqb v) choices then Some v else None.

(** The parameters click hands to the callback, [t] being the converted
    value of [--expected-repo-type]. *)
Definition converted (i : update_invocation) (t : string) : update_params :=
  {| url := arg_url i;
     clients_auth_path := opt_clients_auth_path i;
     clients_library_dir := opt_clients_library_dir i;
     default_branch := with_default "main" (opt_default_branch i);
     from_fs := flag_from_fs i;
     expected_repo_type := t;
     scripts_root_dir := opt_scripts_root_dir i;
     profile := flag_profile i;
     format_output := flag_format_output i |}.

(** The message of a refused choice:
    ['invalid choice: %s. (choose from %s)' % (value, ', '.join(choices))]. *)
Definition invalid_choice (choices : list string) (v : string) : exn :=
  BadParameter
    (String.append "invalid choice: "
       (String.append v
          (String.append ". (choose from "
             (String.append (String.concat ", " choices) ")")))).

Definition invoke_update (i : update_invocation) : run :=
  match Choice expected_repo_type_choices
               (with_default "either" (opt_expected_repo_type i)) with
  | None =>
      ([], Raised (invalid_choice expected_repo_type_choices
                     (with_default "either" (opt_expected_repo_type i))))
  | Some t => update (converted i t)
  end.

(** What [update] comes to for a member [t] of [UpdateType] once the usage
    check has passed: the setup, the one call, and the two ways out. *)
Definition after_validation (i : update_invocation) (t : UpdateType) : run :=
  let a := update_args (converted i (value t)) t in
  let done := profiling_setup (flag_profile i) ++ [CallUpdateRepository a] in
  match update_repository a with
  | Returns =>
      if flag_format_output i
      then (done ++ [Print (JsonDumps success_data)], Returned)
      else (done, Returned)
  | Raises e =>
      if flag_format_output i
      then (done ++ [Print (JsonDumps (error_data e))], Returned)
      else (done, Raised e)
  end.

Definition invoke_validate (i : validate_invocation) : run :=
  validate {| v_clients_auth_path := arg_clients_auth_path i;
              v_clients_library_dir := vopt_clients_library_dir i;
              v_default_branch := with_default "main" (vopt_default_branch i);
              v_from_commit := vopt_from_commit i |}.

End Commands.

(** *** Process level *)

(** Exit status of the process running a command: click exits with 0 when
    the callback returns, with 2 on a usage error; an exception that
    nobody catches ends the interpreter with status 1. *)
Definition exit_status (r : result) : nat :=
  match r with
  | Returned => 0
  | Raised (UsageError _) | Raised (BadParameter _) => 2
  | Raised _ => 1
  end.

Definition is_atexit_register (e : event) : bool :=
  match e with
  | AtexitRegister => true
  | _ => false
  end.

(** The registered [exit] function, run when the interpreter ends. *)
Definition at_exit (tr : list event) : list event :=
  if existsb is_atexit_register tr
  then [ProfilerDisable; Print (Text "Profiling completed");
        DumpStats "updater.prof"]
  else [].

Definition process (r : run) : list event * nat :=
  (fst r ++ at_exit (fst r), exit_status (snd r)).

(** *** Observations on traces *)

Fixpoint update_calls (tr : list event) : list update_repository_args :=
  match tr with
  | [] => []
  | CallUpdateRepository a :: tr' => a :: update_calls tr'
  | _ :: tr' => update_calls tr'
  end.

Fixpoint validate_calls (tr : list event) : list validate_repository_args :=
  match tr with
  | [] => []
  | CallValidateRepository a :: tr' => a :: validate_calls tr'
  | _ :: tr' => validate_calls tr'
  end.

Fixpoint printed (tr : list event) : list output :=
  match tr with
  | [] => []
  | Print o :: tr' => o :: printed tr'
  | _ :: tr' => printed tr'
  end.

Definition is_usage_error (r : result) : bool :=
  match r with
  | Raised (UsageError _) | Raised (BadParameter _) => true
  | _ => false
  end.

(** The same command line with other [--profile] and [--format-output]. *)
Definition with_flags (i : update_invocation) (profile format_output : bool)
  : update_invocation :=
  {| arg_url := arg_url i;
     opt_clients_auth_path := opt_clients_auth_path i;
     opt_clients_library_dir := opt_clients_library_dir i;
     opt_default_branch := opt_default_branch i;
     flag_from_fs := flag_from_fs i;
     opt_expected_repo_type := opt_expected_repo_type i;
     opt_scripts_root_dir := opt_scripts_root_dir i;
     flag_profile := profile;
     flag_format_output := format_output |}.

(** An invocation passes option validation when click accepts the value of
    [--expected-repo-type] and the callback's own usage check finds one of
    the two locations. *)
Definition passes_option_validation (i : update_invocation) : bool :=
  existsb (String.eqb (with_default "either" (opt_expected_repo_type i)))
          expected_repo_type_choices
  && negb (match opt_clients_auth_path i, opt_clients_library_dir i with
           | None, None => true
           | _, _ => false
           end).

End Repo.

(** ** Repository Layout Resolver *)

Module Layout.

(** Modelled from the spec: the Repository Layout Resolver (section 4.4),
    which lives in the updater and developer tool, outside the command
    module; the commands only forward the paths and overrides.  A path is
    the list of its components, outermost first. *)
Definition path : Type := list string.

Definition parent (p : path) : path := removelast p.

Definition name (p : path) : string := last p EmptyString.

Record layout : Type := {
  root_dir : path;
  namespace : string
}.

(** Default derivation: the root directory is two levels up from the
    authentication repository's directory, the namespace is the name of the
    directory that contains it; an explicit override replaces the derived
    value. *)
Definition resolve (auth_repo : path) (library_dir : option path)
  (namespace_override : option string) : layout :=
  {| root_dir :=
       match library_dir with
       | Some d => d
       | None => parent (parent auth_repo)
       end;
     namespace :=
       match namespace_override with
       | Some n => n
       | None => name (parent auth_repo)
       end |}.

(** [resolveTargetPath]: the components of the namespaced name are appended
    to the root directory. *)
Definition resolveTargetPath (l : layout) (namespaced_name : list string)
  : path :=
  root_dir l ++ namespaced_name.

End Layout.

(** ** Trust Chain Validator *)

Module TrustChain.

Definition KeyId : Type := nat.
Definition CommitId : Type := string.
Definition Hash : Type := string.
Definition Signature : Type := string.

(** Modelled from the spec: the data model of section 3 and the components
    of sections 4.1 to 4.3 (Key and Role Model, Metadata Store, Trust Chain
    Validator), which are implemented by the updater, outside the command
    module. *)
Record Role : Type := {
  role_name : string;
  keyids : list KeyId;
  threshold : nat
}.

Inductive Body : Type :=
| RootBody (roles : list Role)
| TargetsBody (manifest : list (string * Hash))
| SnapshotBody (entries : list (string * (Hash * nat)))
| TimestampBody (snapshot_version : nat).

Record Generation : Type := {
  g_role : string;
  g_version : nat;
  g_expires : nat;
  g_body : Body;
  g_signatures : list (KeyId * Signature)
}.

Record Commit : Type := {
  c_id : CommitId;
  c_time : nat
}.

(** The trusted generation: the documents of the last trusted commit. *)
Definition Trusted : Type := list Generation.

Inductive Reason : Type :=
| MalformedMetadata
| NotFound
| InsufficientSignatures
| RollbackDetected
| MetadataExpired
| SnapshotMismatch
| TimestampStale.

Inductive State : Type :=
| UNVALIDATED
| CHECKING_SIGNATURES
| CHECKING_VERSION
| CHECKING_EXPIRY
| CHECKING_CROSSREF
| TRUSTED
| REJECTED (reason : Reason).

(** What the validator takes from its collaborators: the Metadata Store's
    [loadGenerations] ([None] is [MalformedMetadata]), the canonical byte
    form of a document without its signature block, signature verification
    and the content hash of a document. *)
Class Collaborators : Type := {
  loadGenerations : Commit -> option (list Generation);
  canonical : string -> nat -> nat -> Body -> string;
  verify : KeyId -> string -> Signature -> bool;
  content_hash : Generation -> Hash
}.

Definition find_generation (role : string) (gs : list Generation)
  : option Generation :=
  find (fun g => String.eqb (g_role g) role) gs.

(** The invariant of a role: the threshold is at least 1 and at most the
    number of distinct authorized keys. *)
Definition well_formed_role (r : Role) : bool :=
  Nat.leb 1 (threshold r)
  && Nat.leb (threshold r) (length (nodup Nat.eq_dec (keyids r))).

(** The trusted root generation is the document of the root role; a key
    list in the document of another role defines nothing. *)
Definition is_root (g : Generation) : bool :=
  String.eqb (g_role g) "root"
  && match g_body g with
     | RootBody _ => true
     | _ => false
     end.

(** [resolveRole]: the role as the trusted root generation defines it; a
    definition that breaks the invariant of a role defines nothing. *)
Definition resolveRole (t : Trusted) (role : string) : option Role :=
  match find is_root t with
  | Some g =>
      match g_body g with
      | RootBody roles =>
          match find (fun r => String.eqb (role_name r) role) roles with
          | Some r => if well_formed_role r then Some r else None
          | None => None
          end
      | _ => None
      end
  | None => None
  end.

Definition trusted_version (t : Trusted) (role : string) : option nat :=
  option_map g_version (find_generation role t).

Section Validator.

Context {collaborators : Collaborators}.

Definition canonical_form (g : Generation) : string :=
  canonical (g_role g) (g_version g) (g_expires g) (g_body g).

(** Key [k] has a signature on [g] that verifies over the canonical form. *)
Definition signed_by (g : Generation) (k : KeyId) : bool :=
  existsb (fun ks => Nat.eqb (fst ks) k && verify k (canonical_form g) (snd ks))
          (g_signatures g).

(** The distinct authorized keys of [r] whose signature on [g] verifies. *)
Definition valid_signers (r : Role) (g : Generation) : list KeyId :=
  filter (signed_by g) (nodup Nat.eq_dec (keyids r)).

Definition threshold_met (r : Role) (g : Generation) : bool :=
  Nat.leb (threshold r) (length (valid_signers r g)).

(** Check 1, against the key set of the previously trusted generation.  For
    the root role the signatures of the new key set are accepted as well,
    but only on top of the threshold on the old set, so the verdict is the
    one of the old set. *)
Definition check_signatures (t : Trusted) (g : Generation) : option Reason :=
  match resolveRole t (g_role g) with
  | None => Some NotFound
  | Some r => if threshold_met r g then None else Some InsufficientSignatures
  end.

(** Check 2: strictly greater than the last trusted version of the role. *)
Definition check_version (t : Trusted) (g : Generation) : option Reason :=
  match trusted_version t (g_role g) with
  | Some v => if Nat.ltb v (g_version g) then None else Some RollbackDetected
  | None => None
  end.

(** Check 3: the expiration is after the commit's timestamp. *)
Definition check_expiry (c : Commit) (g : Generation) : option Reason :=
  if Nat.ltb (c_time c) (g_expires g) then None else Some MetadataExpired.

Definition listed (entries : list (string * (Hash * nat))) (g : Generation)
  : bool :=
  existsb (fun e => String.eqb (fst e) (g_role g)
                    && String.eqb (fst (snd e)) (content_hash g)
                    && Nat.eqb (snd (snd e)) (g_version g))
          entries.

(** Check 4: a snapshot document lists every other loaded document with its
    hash and version; a timestamp document references the version of the
    loaded snapshot. *)
Definition check_crossref (gs : list Generation) (g : Generation)
  : option Reason :=
  match g_body g with
  | SnapshotBody entries =>
      if forallb (fun g' => String.eqb (g_role g') (g_role g) || listed entries g')
                 gs
      then None else Some SnapshotMismatch
  | TimestampBody v =>
      if forallb (fun g' => match g_body g' with
                            | SnapshotBody _ => Nat.eqb (g_version g') v
                            | _ => true
                            end) gs
      then None else Some TimestampStale
  | _ => None
  end.

(** The first failure of a check over the documents of a commit. *)
Fixpoint first_failure (check : Generation -> option Reason)
  (gs : list Generation) : option Reason :=
  match gs with
  | [] => None
  | g :: gs' =>
      match check g with
      | Some r => Some r
      | None => first_failure check gs'
      end
  end.

Definition advance (failure : option Reason) (next : State) : State :=
  match failure with
  | Some r => REJECTED r
  | None => next
  end.

(** One transition of the state machine of a commit. *)
Definition step (t : Trusted) (c : Commit) (gs : list Generation) (s : State)
  : State :=
  match s with
  | UNVALIDATED => CHECKING_SIGNATURES
  | CHECKING_SIGNATURES =>
      advance (first_failure (check_signatures t) gs) CHECKING_VERSION
  | CHECKING_VERSION =>
      advance (first_failure (check_version t) gs) CHECKING_EXPIRY
  | CHECKING_EXPIRY =>
      advance (first_failure (check_expiry c) gs) CHECKING_CROSSREF
  | CHECKING_CROSSREF =>
      advance (first_failure (check_crossref gs) gs) TRUSTED
  | TRUSTED => TRUSTED
  | REJECTED r => REJECTED r
  end.

Fixpoint steps (n : nat) (t : Trusted) (c : Commit) (gs : list Generation)
  (s : State) : State :=
  match n with
  | O => s
  | S n' => steps n' t c gs (step t c gs s)
  end.

Definition well_formed_body (b : Body) : bool :=
  match b with
  | RootBody roles => forallb well_formed_role roles
  | _ => true
  end.

Fixpoint one_per_role (gs : list Generation) : bool :=
  match gs with
  | [] => true
  | g :: gs' =>
      negb (existsb (fun g' => String.eqb (g_role g') (g_role g)) gs')
      && one_per_role gs'
  end.

(** The generation schema: a commit holds documents, one per role, and the
    roles a root document defines keep the invariant of a role. *)
Definition schema_ok (gs : list Generation) : bool :=
  match gs with
  | [] => false
  | _ => one_per_role gs && forallb (fun g => well_formed_body (g_body g)) gs
  end.

(** The documents of a commit, parsed into the schema; [None] is
    [MalformedMetadata]. *)
Definition parsed (c : Commit) : option (list Generation) :=
  match loadGenerations c with
  | Some gs => if schema_ok gs then Some gs else None
  | None => None
  end.

(** The machine is run from [UNVALIDATED] to its final state, which takes
    at most five transitions. *)
Definition validate_commit (t : Trusted) (c : Commit) : State :=
  match parsed c with
  | None => REJECTED MalformedMetadata
  | Some gs => steps 5 t c gs UNVALIDATED
  end.

(** Promotion: the documents of the commit replace the trusted documents of
    their roles. *)
Definition promote (t : Trusted) (gs : list Generation) : Trusted :=
  gs ++ filter (fun g => match find_generation (g_role g) gs with
                         | Some _ => false
                         | None => true
                         end) t.

Record ChainResult : Type := {
  trusted : Trusted;
  last_trusted : option CommitId;
  evaluated : list CommitId;
  rejection : option (CommitId * Reason)
}.

(** Commits are validated oldest first; the first commit that does not
    reach [TRUSTED] ends the walk. *)
Fixpoint validate_chain (t : Trusted) (last : option CommitId)
  (cs : list Commit) : ChainResult :=
  match cs with
  | [] => {| trusted := t; last_trusted := last; evaluated := [];
             rejection := None |}
  | c :: cs' =>
      match validate_commit t c, parsed c with
      | TRUSTED, Some gs =>
          let r := validate_chain (promote t gs) (Some (c_id c)) cs' in
          {| trusted := trusted r; last_trusted := last_trusted r;
             evaluated := c_id c :: evaluated r; rejection := rejection r |}
      | REJECTED reason, _ =>
          {| trusted := t; last_trusted := last; evaluated := [c_id c];
             rejection := Some (c_id c, reason) |}
      | _, _ =>
          {| trusted := t; last_trusted := last; evaluated := [c_id c];
             rejection := Some (c_id c, MalformedMetadata) |}
      end
  end.

End Validator.

End TrustChain.

(** ** Target Repository Validator and Update Session Orchestrator *)

Module Orchestrator.

Import TrustChain.

(** Modelled from the spec: the Target Repository Validator (section 4.5)
    and the Update Session Orchestrator (section 4.6), the code behind
    [update_repository] and [validate_repository], which the command module
    imports from the updater. *)
Definition TargetName : Type := (string * string)%type.

Record DescriptorEntry : Type := {
  urls : list string;
  custom : list (string * string)
}.

Definition Descriptor : Type := list (TargetName * DescriptorEntry).

Record TargetRepo : Type := {
  target_name : TargetName;
  target_url : string;
  target_history : list CommitId
}.

Inductive TargetFailure : Type :=
| UrlMismatch
| MissingPinnedCommit
| CommitOrderMismatch
| LayoutUnresolvable.

Definition target_name_eqb (a b : TargetName) : bool :=
  String.eqb (fst a) (fst b) && String.eqb (snd a) (snd b).

(** Replacement of every occurrence of [pat] in a template; [skip] counts
    the characters of an occurrence that are still to be dropped. *)
Fixpoint replace_from (skip : nat) (pat rep s : string) : string :=
  match s with
  | EmptyString => EmptyString
  | String ch s' =>
      match skip with
      | S k => replace_from k pat rep s'
      | O =>
          if String.prefix pat s && negb (String.eqb pat EmptyString)
          then String.append rep (replace_from (String.length pat - 1) pat rep s')
          else String ch (replace_from O pat rep s')
      end
  end.

Definition expand_template (template : string) (n : TargetName) : string :=
  replace_from O "{repo_name}" (snd n)
    (replace_from O "{org_name}" (fst n) template).

(** The URLs a target repository may have: the descriptor's own, or the
    expanded mirror templates when the descriptor gives none. *)
Definition expected_urls (mirrors : list string) (n : TargetName)
  (e : DescriptorEntry) : list string :=
  match urls e with
  | [] => map (fun t => expand_template t n) mirrors
  | us => us
  end.

Fixpoint in_order (pinned history : list CommitId) : bool :=
  match history with
  | [] => match pinned with [] => true | _ => false end
  | h :: history' =>
      match pinned with
      | [] => true
      | p :: pinned' =>
          if String.eqb p h then in_order pinned' history'
          else in_order pinned history'
      end
  end.

Definition validate_target (mirrors : list string) (repo : TargetRepo)
  (e : DescriptorEntry) (pinned : list CommitId) : option TargetFailure :=
  if negb (existsb (String.eqb (target_url repo))
                   (expected_urls mirrors (target_name repo) e))
  then Some UrlMismatch
  else if negb (forallb (fun p => existsb (String.eqb p) (target_history repo))
                        pinned)
  then Some MissingPinnedCommit
  else if negb (in_order pinned (target_history repo))
  then Some CommitOrderMismatch
  else None.

(** The signed target files of a trusted commit, as the orchestrator reads
    them. *)
Class TargetFiles : Type := {
  descriptor_at : CommitId -> Descriptor;
  mirrors_at : CommitId -> list string;
  pinned_at : CommitId -> TargetName -> list CommitId
}.

Inductive Mode : Type :=
| UpdateRun
| ValidateOnly (from_commit : option CommitId).

(** One invocation.  [fetched] is the history of the authentication
    repository the session works on, oldest first; [targets] are the copies
    of the target repositories it works on. *)
Record Session : Type := {
  source_url : string;
  auth_path : Layout.path;
  library_dir : option Layout.path;
  mode : Mode;
  last_known_trusted : Trusted;
  fetched : list Commit;
  targets : list TargetRepo
}.

(** Durable local state of an authentication repository. *)
Record Local : Type := {
  trusted_pointer : option CommitId;
  trusted_generation : Trusted
}.

Inductive Rejection : Type :=
| ChainRejected (commit : CommitId) (reason : Reason)
| TargetsRejected (failures : list (TargetName * TargetFailure))
| NoTrustedCommit.

Inductive Outcome : Type :=
| Accepted (acceptedCommit : CommitId)
           (perRepoResults : list (TargetName * option TargetFailure))
| Rejected (why : Rejection).

Inductive IO : Type :=
| Clone (url : string)
| Fetch (url : string)
| FetchTarget (n : TargetName)
| Merge (commit : CommitId).

Record Finished : Type := {
  outcome : Outcome;
  state : Local;
  io : list IO
}.

Fixpoint commits_after (p : CommitId) (h : list Commit) : list Commit :=
  match h with
  | [] => []
  | c :: h' => if String.eqb (c_id c) p then h' else commits_after p h'
  end.

Fixpoint commits_from (p : CommitId) (h : list Commit) : list Commit :=
  match h with
  | [] => []
  | c :: h' => if String.eqb (c_id c) p then c :: h' else commits_from p h'
  end.

(** Step 2: the commits to validate, oldest first. *)
Definition enumerate (local : Local) (s : Session) : list Commit :=
  match mode s with
  | UpdateRun =>
      match trusted_pointer local with
      | Some p => commits_after p (fetched s)
      | None => fetched s
      end
  | ValidateOnly (Some c) => commits_from c (fetched s)
  | ValidateOnly None => fetched s
  end.

Fixpoint failures (rs : list (TargetName * option TargetFailure))
  : list (TargetName * TargetFailure) :=
  match rs with
  | [] => []
  | (n, Some f) :: rs' => (n, f) :: failures rs'
  | (_, None) :: rs' => failures rs'
  end.

Section Run.

Context {collaborators : Collaborators} {target_files : TargetFiles}.

Definition locate (s : Session) (n : TargetName) : option TargetRepo :=
  find (fun r => target_name_eqb (target_name r) n) (targets s).

(** Step 4 for one entry of the descriptor. *)
Definition check_entry (s : Session) (c : CommitId)
  (e : TargetName * DescriptorEntry) : TargetName * option TargetFailure :=
  (fst e,
   match locate s (fst e) with
   | None => Some LayoutUnresolvable
   | Some repo => validate_target (mirrors_at c) repo (snd e) (pinned_at c (fst e))
   end).

(** Step 1: an update run clones the authentication repository when there
    is no local trusted state yet and fetches it otherwise; a validate-only
    run works on what is on disk. *)
Definition obtain (local : Local) (s : Session) : list IO :=
  match mode s with
  | UpdateRun =>
      match trusted_pointer local with
      | None => [Clone (source_url s)]
      | Some _ => [Fetch (source_url s)]
      end
  | ValidateOnly _ => []
  end.

Definition fetch_targets (s : Session) (d : Descriptor) : list IO :=
  match mode s with
  | UpdateRun => map (fun e => FetchTarget (fst e)) d
  | ValidateOnly _ => []
  end.

(** Step 5, the only step that writes durable state: an update run merges
    the accepted commit and advances the pointer; a validate-only run
    merges nothing. *)
Definition finish (local : Local) (s : Session) (c : CommitId)
  (t : Trusted) (rs : list (TargetName * option TargetFailure))
  (done : list IO) : Finished :=
  match mode s with
  | UpdateRun =>
      {| outcome := Accepted c rs;
         state := {| trusted_pointer := Some c; trusted_generation := t |};
         io := done ++ [Merge c] |}
  | ValidateOnly _ =>
      {| outcome := Accepted c rs; state := local; io := done |}
  end.

Definition run (local : Local) (s : Session) : Finished :=
  let done := obtain local s in
  let chain := validate_chain (last_known_trusted s) (trusted_pointer local)
                              (enumerate local s) in
  match rejection chain with
  | Some (c, reason) =>
      {| outcome := Rejected (ChainRejected c reason); state := local;
         io := done |}
  | None =>
      match last_trusted chain with
      | None =>
          {| outcome := Rejected NoTrustedCommit; state := local; io := done |}
      | Some c =>
          let d := descriptor_at c in
          let done' := done ++ fetch_targets s d in
          let rs := map (check_entry s c) d in
          match failures rs with
          | [] => finish local s c (trusted chain) rs done'
          | fs =>
              {| outcome := Rejected (TargetsRejected fs); state := local;
                 io := done' |}
          end
      end
  end.

(** A session opened for the [update] command starts from the trusted
    generation of the local state. *)
Definition update_session (local : Local) (url : string)
  (auth : Layout.path) (lib : option Layout.path) (history : list Commit)
  (ts : list TargetRepo) : Session :=
  {| source_url := url; auth_path := auth; library_dir := lib;
     mode := UpdateRun; last_known_trusted := trusted_generation local;
     fetched := history; targets := ts |}.

End Run.

End Orchestrator.

(** ** Concrete runs *)

Module Examples.

Import Repo.

Definition accepting_updater (_ : update_repository_args) : call_result :=
  Returns.

Definition rejecting_updater (_ : update_repository_args) : call_result :=
  Raises (UpdaterError "rejected").

Definition accepting_validator (_ : validate_repository_args) : call_result :=
  Returns.

(** [taf repo update URL --clients-auth-path ../ns/auth --format-output] *)
Definition structured_invocation : update_invocation :=
  {| arg_url := "https://example.org/ns/auth.git";
     opt_clients_auth_path := Some "../ns/auth";
     opt_clients_library_dir := None;
     opt_default_branch := None;
     flag_from_fs := false;
     opt_expected_repo_type := None;
     opt_scripts_root_dir := None;
     flag_profile := false;
     flag_format_output := true |}.

(** [taf repo update URL]: neither location is given. *)
Definition bare_invocation : update_invocation :=
  {| arg_url := "https://example.org/ns/auth.git";
     opt_clients_auth_path := None;
     opt_clients_library_dir := None;
     opt_default_branch := None;
     flag_from_fs := false;
     opt_expected_repo_type := None;
     opt_scripts_root_dir := None;
     flag_profile := false;
     flag_format_output := false |}.

(** [taf repo validate ../ns/auth] *)
Definition plain_validation : validate_invocation :=
  {| arg_clients_auth_path := "../ns/auth";
     vopt_clients_library_dir := None;
     vopt_default_branch := None;
     vopt_from_commit := None |}.

(** *** A small authentication repository

    Roles: root with threshold 2 of the keys 1, 2, 3; targets, snapshot and
    timestamp with one key each.  Signatures are toy ones: the signature of
    key [k] on a message is the letter of [k] followed by the message. *)

Import TrustChain Orchestrator.

Definition key_tag (k : KeyId) : string :=
  String (Ascii.ascii_of_nat (64 + k)) EmptyString.

Definition version_tag (v : nat) : string :=
  String (Ascii.ascii_of_nat (48 + v)) EmptyString.

Definition toy_sign (k : KeyId) (m : string) : Signature :=
  String.append (key_tag k) m.

Definition toy_canonical (role : string) (v e : nat) (b : Body) : string :=
  String.append role (String.append ":" (version_tag v)).

Definition roles0 : list Role :=
  [ {| role_name := "root"; keyids := [1; 2; 3]; threshold := 2 |};
    {| role_name := "targets"; keyids := [4]; threshold := 1 |};
    {| role_name := "snapshot"; keyids := [5]; threshold := 1 |};
    {| role_name := "timestamp"; keyids := [6]; threshold := 1 |} ].

Definition doc (role : string) (v : nat) (b : Body) (signers : list KeyId)
  : Generation :=
  {| g_role := role; g_version := v; g_expires := 100; g_body := b;
     g_signatures :=
       map (fun k => (k, toy_sign k (toy_canonical role v 100 b))) signers |}.

(** The generation trusted before the session. *)
Definition gens0 : Trusted :=
  [doc "root" 1 (RootBody roles0) [1; 2]; doc "targets" 1 (TargetsBody []) [4]].

(** Commit A: every document is signed by its threshold and has a new
    version; the snapshot lists the other three documents. *)
Definition gensA : list Generation :=
  [doc "root" 2 (RootBody roles0) [1; 2];
   doc "targets" 2 (TargetsBody [("ns/repo1", "c1")]) [4];
   doc "snapshot" 1
       (SnapshotBody [("root", ("root:2", 2)); ("targets", ("targets:2", 2));
                      ("timestamp", ("timestamp:1", 1))]) [5];
   doc "timestamp" 1 (TimestampBody 1) [6]].

(** Commit B: the targets document keeps version 2. *)
Definition gensB : list Generation :=
  [doc "root" 3 (RootBody roles0) [1; 3];
   doc "targets" 2 (TargetsBody [("ns/repo1", "c1")]) [4]].

(** Commit C: the root document is signed by key 1 and by key 7, which is
    not a root key. *)
Definition gensC : list Generation :=
  [doc "root" 3 (RootBody roles0) [1; 7];
   doc "targets" 3 (TargetsBody [("ns/repo1", "c1")]) [4]].

Definition cA : Commit := {| c_id := "A"; c_time := 10 |}.
Definition cB : Commit := {| c_id := "B"; c_time := 11 |}.

Definition toy : Collaborators := {|
  loadGenerations c :=
    if String.eqb (c_id c) "A" then Some gensA
    else if String.eqb (c_id c) "B" then Some gensB
    else if String.eqb (c_id c) "C" then Some gensC
    else None;
  canonical := toy_canonical;
  verify k m s := String.eqb s (toy_sign k m);
  content_hash g := toy_canonical (g_role g) (g_version g) (g_expires g)
                                  (g_body g)
|}.

Definition toy_files : TargetFiles := {|
  descriptor_at _ :=
    [(("ns", "repo1"), {| urls := []; custom := [] |})];
  mirrors_at _ := ["https://example.org/{org_name}/{repo_name}.git"];
  pinned_at _ _ := ["c1"]
|}.








Definition repo1 : TargetRepo :=
  {| target_name := ("ns", "repo1");
     target_url := "https://example.org/ns/repo1.git";
     target_history := ["c0"; "c1"] |}.

Definition local0 : Local :=
  {| trusted_pointer := None; trusted_generation := gens0 |}.

Definition session_of (m : Mode) (history : list Commit) : Session :=
  {| source_url := "https://example.org/ns/auth.git";
     auth_path := ["root"; "ns"; "auth"];
     library_dir := None;
     mode := m;
     last_known_trusted := gens0;
     fetched := history;
     targets := [repo1] |}.

End Examples.

(** ** The commands that delegate to the developer tool *)

Module Developer.

Import Repo.

(** Positional arguments as Python values. *)
Inductive value : Type :=
| VNone
| VStr (s : string)
| VBool (b : bool).

Definition of_option (o : option string) : value :=
  match o with
  | Some s => VStr s
  | None => VNone
  end.

(** The calls into [taf.developer_tool], each with its positional
    arguments in call order. *)
Inductive call : Type :=
| create_repository (args : list value)
| generate_repositories_json (args : list value)
| init_repo (args : list value).

Definition run : Type := (list call * result)%type.

(** What the user typed for [create]. *)
Record create_invocation : Type := {
  c_path : string;
  c_keys_description : option string;
  c_keystore : option string;
  c_commit : bool;
  c_test : bool
}.

(** What the user typed for [generate_repositories_json]. *)
Record generate_invocation : Type := {
  g_path : string;
  g_library_dir : option string;
  g_namespace : option string;
  g_targets_rel_dir : option string;
  g_custom : option string;
  g_use_mirrors : bool
}.

(** What the user typed for [initialize]. *)
Record initialize_invocation : Type := {
  i_path : string;
  i_library_dir : option string;
  i_namespace : option string;
  i_targets_rel_dir : option string;
  i_custom : option string;
  i_use_mirrors : bool;
  i_add_branch : bool;
  i_keystore : option string;
  i_keys_description : option string;
  i_commit : bool;
  i_test : bool;
  i_scheme : option string
}.

Section Commands.

(** The developer tool is external to the command module, and so is the
    constant of [taf.constants] that [--scheme] defaults to. *)
Variable developer_tool : call -> call_result.
Variable DEFAULT_RSA_SIGNATURE_SCHEME : string.

Definition delegate (c : call) : run :=
  ([c],
   match developer_tool c with
   | Returns => Returned
   | Raises e => Raised e
   end).

Definition create_args (i : create_invocation) : list value :=
  [VStr (c_path i); of_option (c_keystore i);
   of_option (c_keys_description i); VBool (c_commit i); VBool (c_test i)].

Definition create (i : create_invocation) : run :=
  delegate (create_repository (create_args i)).

Definition generate_args (i : generate_invocation) : list value :=
  [VStr (g_path i); of_option (g_library_dir i); of_option (g_namespace i);
   of_option (g_targets_rel_dir i); of_option (g_custom i);
   VBool (g_use_mirrors i)].

Definition generate (i : generate_invocation) : run :=
  delegate (generate_repositories_json (generate_args i)).

Definition initialize_args (i : initialize_invocation) : list value :=
  [VStr (i_path i); of_option (i_library_dir i); of_option (i_namespace i);
   of_option (i_targets_rel_dir i); of_option (i_custom i);
   VBool (i_use_mirrors i); VBool (i_add_branch i);
   of_option (i_keystore i); of_option (i_keys_description i);
   VBool (i_commit i); VBool (i_test i);
   VStr (with_default DEFAULT_RSA_SIGNATURE_SCHEME (i_scheme i))].

Definition initialize (i : initialize_invocation) : run :=
  delegate (init_repo (initialize_args i)).

End Commands.

(** The [create] and [generate_repositories_json] command lines that carry
    the options of an [initialize] command line. *)
Definition create_part (i : initialize_invocation) : create_invocation :=
  {| c_path := i_path i;
     c_keys_description := i_keys_description i;
     c_keystore := i_keystore i;
     c_commit := i_commit i;
     c_test := i_test i |}.

Definition generate_part (i : initialize_invocation) : generate_invocation :=
  {| g_path := i_path i;
     g_library_dir := i_library_dir i;
     g_namespace := i_namespace i;
     g_targets_rel_dir := i_targets_rel_dir i;
     g_custom := i_custom i;
     g_use_mirrors := i_use_mirrors i |}.

End Developer.

(** ** Observations on the traces of [update] *)

Module Observe.

Import Repo.

Definition is_profiler_event (e : event) : bool :=
  match e with
  | ProfilerEnable | AtexitRegister | ProfilerDisable | DumpStats _ => true
  | _ => false
  end.

Definition is_json (o : output) : bool :=
  match o with
  | JsonDumps _ => true
  | Text _ => false
  end.

(** The payload [update] prints with [--format-output] for a result of
    [update_repository]. *)
Definition payload (r : call_result) : json_dict :=
  match r with
  | Returns => success_data
  | Raises e => error_data e
  end.

Definition result_of (r : call_result) : result :=
  match r with
  | Returns => Returned
  | Raises e => Raised e
  end.

Definition teardown : list event :=
  [ProfilerDisable; Print (Text "Profiling completed");
   DumpStats "updater.prof"].

(** A command line for [update] with a location, to run with and without
    the two flags. *)
Definition located_invocation (profile format_output : bool)
  : update_invocation :=
  {| arg_url := "https://example.org/ns/auth.git";
     opt_clients_auth_path := None;
     opt_clients_library_dir := Some "../root";
     opt_default_branch := None;
     flag_from_fs := false;
     opt_expected_repo_type := Some "test";
     opt_scripts_root_dir := None;
     flag_profile := profile;
     flag_format_output := format_output |}.

(** Parameters for a direct call of the [update] callback with a value that
    is not a member of [UpdateType]. *)
Definition direct_params (format_output : bool) : update_params :=
  {| url := "https://example.org/ns/auth.git";
     clients_auth_path := Some "../ns/auth";
     clients_library_dir := None;
     default_branch := "main";
     from_fs := false;
     expected_repo_type := "Test";
     scripts_root_dir := None;
     profile := false;
     format_output := format_output |}.

End Observe.

(** ** [update] when the call may raise more than an [Exception] *)

Module Interrupts.

Import Repo Observe.

(** A [BaseException] that is not an [Exception], which
    [except Exception] does not catch. *)
Inductive base_exception : Type :=
| KeyboardInterrupt
| SystemExit (status : nat)
| OtherBaseException (name : string).

(** What a call can do: return or raise an [Exception], or let a
    [BaseException] through. *)
Inductive call_outcome : Type :=
| Completes (r : call_result)
| Escapes (b : base_exception).

Inductive result : Type :=
| Ends (r : Repo.result)
| Escaped (b : base_exception).

Definition run : Type := (list event * result)%type.

Definition ends (r : Repo.run) : run := (fst r, Ends (snd r)).

Section Commands.

Variable update_repository : update_repository_args -> call_outcome.

(** The [try] block of [update] with its [except Exception] clause: a
    [BaseException] raised by the call passes the clause and the
    callback. *)
Definition try_update (p : update_params) (done : list event) : run :=
  match UpdateType_of (expected_repo_type p) with
  | None => ends (on_exception p done (not_a_member (expected_repo_type p)))
  | Some t =>
      let a := update_args p t in
      let done' := done ++ [CallUpdateRepository a] in
      match update_repository a with
      | Completes Returns =>
          if format_output p
          then (done' ++ [Print (JsonDumps success_data)], Ends Returned)
          else (done', Ends Returned)
      | Completes (Raises e) => ends (on_exception p done' e)
      | Escapes b => (done', Escaped b)
      end
  end.

Definition update (p : update_params) : run :=
  match clients_auth_path p, clients_library_dir p with
  | None, None => ([], Ends (Raised (UsageError usage_message)))
  | _, _ => try_update p (profiling_setup (profile p))
  end.

Definition invoke_update (i : update_invocation) : run :=
  match Choice expected_repo_type_choices
               (with_default "either" (opt_expected_repo_type i)) with
  | None =>
      ([], Ends (Raised (invalid_choice expected_repo_type_choices
                           (with_default "either"
                              (opt_expected_repo_type i)))))
  | Some t => update (converted i t)
  end.

(** What [update] comes to for a member [t] of [UpdateType] once the usage
    check has passed. *)
Definition after_validation (i : update_invocation) (t : UpdateType) : run :=
  let a := update_args (converted i (value t)) t in
  let done := profiling_setup (flag_profile i) ++ [CallUpdateRepository a] in
  match update_repository a with
  | Completes r =>
      if flag_format_output i
      then (done ++ [Print (JsonDumps (payload r))], Ends Returned)
      else (done, Ends (result_of r))
  | Escapes b => (done, Escaped b)
  end.

End Commands.

(** Exit status of the process: click turns a [KeyboardInterrupt] into an
    abort with status 1, [SystemExit] carries its own status, any other
    uncaught exception ends the interpreter with status 1. *)
Definition exit_status (r : result) : nat :=
  match r with
  | Ends r' => Repo.exit_status r'
  | Escaped KeyboardInterrupt => 1
  | Escaped (SystemExit status) => status
  | Escaped (OtherBaseException _) => 1
  end.

Definition process (r : run) : list event * nat :=
  (fst r ++ at_exit (fst r), exit_status (snd r)).

Definition interrupted_updater (_ : update_repository_args) : call_outcome :=
  Escapes KeyboardInterrupt.

Definition failing_updater (_ : update_repository_args) : call_outcome :=
  Completes (Raises (UpdaterError "rejected")).

End Interrupts.

(** * Properties of the commands *)

Section CommandFacts.

Import Repo.

Variable update_repository : update_repository_args -> call_result.
Variable validate_repository : validate_repository_args -> call_result.

Lemma update_calls_app (tr1 tr2 : list event) :
  update_calls (tr1 ++ tr2) = update_calls tr1 ++ update_calls tr2.
Proof.
  induction tr1 as [|e tr1 IH]; simpl; [reflexivity|].
  destruct e; simpl; rewrite IH; reflexivity.
Qed.

Lemma printed_app (tr1 tr2 : list event) :
  printed (tr1 ++ tr2) = printed tr1 ++ printed tr2.
Proof.
  induction tr1 as [|e tr1 IH]; simpl; [reflexivity|].
  destruct e; simpl; rewrite IH; reflexivity.
Qed.

Lemma update_calls_profiling_setup (b : bool) :
  update_calls (profiling_setup b) = [].
Proof. destruct b; reflexivity. Qed.

Lemma update_calls_at_exit (tr : list event) : update_calls (at_exit tr) = [].
Proof. unfold at_exit. destruct (existsb _ tr); reflexivity. Qed.

Lemma Choice_spec (v : string) :
  Choice expected_repo_type_choices v = Some v <->
  v = "test" \/ v = "official" \/ v = "either".
Proof.
  unfold Choice, expected_repo_type_choices. simpl.
  destruct (String.eqb_spec v "test") as [->|Ht]; [simpl; tauto|].
  destruct (String.eqb_spec v "official") as [->|Ho]; [simpl; tauto|].
  destruct (String.eqb_spec v "either") as [->|He]; [simpl; tauto|].
  simpl. split; [discriminate|]. intros [H|[H|H]]; contradiction.
Qed.

Lemma Choice_some (choices : list string) (v w : string) :
  Choice choices v = Some w -> w = v /\ existsb (String.eqb v) choices = true.
Proof.
  unfold Choice. destruct (existsb _ choices); [|discriminate].
  intros H; inversion H; auto.
Qed.

(** Every accepted choice names a member of [UpdateType], with that value. *)
Lemma UpdateType_of_choice (v : string) :
  existsb (String.eqb v) expected_repo_type_choices = true ->
  exists t, UpdateType_of v = Some t /\ value t = v.
Proof.
  unfold expected_repo_type_choices, UpdateType_of. simpl.
  destruct (String.eqb_spec v "test") as [->|Ht]; [exists TEST; auto|].
  destruct (String.eqb_spec v "official") as [->|Ho]; [exists OFFICIAL; auto|].
  destruct (String.eqb_spec v "either") as [->|He]; [exists EITHER; auto|].
  simpl; discriminate.
Qed.

End CommandFacts.

Section UpdateShape.

Import Repo.

Variable update_repository : update_repository_args -> call_result.

Lemma try_update_member (i : update_invocation) (t : UpdateType) :
  UpdateType_of (value t) = Some t ->
  try_update update_repository (converted i (value t))
             (profiling_setup (flag_profile i))
  = after_validation update_repository i t.
Proof.
  intros Ht. unfold try_update, on_exception, after_validation.
  cbn [expected_repo_type converted format_output profile]. rewrite Ht.
  reflexivity.
Qed.

Lemma invoke_update_passes (i : update_invocation) :
  passes_option_validation i = true ->
  exists t,
    UpdateType_of (with_default "either" (opt_expected_repo_type i)) = Some t /\
    value t = with_default "either" (opt_expected_repo_type i) /\
    invoke_update update_repository i = after_validation update_repository i t.
Proof.
  unfold passes_option_validation. intros H.
  apply andb_prop in H. destruct H as [Hc Hl].
  destruct (UpdateType_of_choice _ Hc) as [t [Ht Hv]].
  exists t. split; [exact Ht|]. split; [exact Hv|].
  unfold invoke_update, Choice. rewrite Hc, <- Hv.
  rewrite <- Hv in Ht.
  unfold update. cbn [clients_auth_path clients_library_dir converted].
  destruct (opt_clients_auth_path i), (opt_clients_library_dir i);
    try (apply try_update_member; exact Ht); discriminate.
Qed.

End UpdateShape.

Import Repo Examples.

(** C1, counterexample.  With [--format-output], when [update_repository]
    raises, the claim asks for a non-zero exit status next to the payload;
    on this run the payload is printed and the status is zero. *)
Lemma structured_rejection_exits_zero :
  flag_format_output structured_invocation = true /\
  rejecting_updater
    (update_args (converted structured_invocation "either") EITHER)
  = Raises (UpdaterError "rejected") /\
  ~ (snd (process (invoke_update rejecting_updater structured_invocation)) <> 0
     /\ In (JsonDumps [("updateSuccessful", JBool false);
                       ("error", JStr "rejected")])
           (printed (fst (process (invoke_update rejecting_updater
                                     structured_invocation))))).
Proof.
  split; [reflexivity|]. split; [reflexivity|].
  intros [Hstatus _]. apply Hstatus. reflexivity.
Qed.

(** C1, as amended.  For an invocation of [update] that passes option
    validation, [update_repository] is called once; when it raises [e] and
    [--format-output] is set, the payload
    [{updateSuccessful: false, error: str(e)}] is printed and the command
    returns, so the exit status is zero; without [--format-output] the
    exception is raised again, the exit status is non-zero and no payload is
    printed; when the update succeeds the exit status is zero, and with
    [--format-output] the payload [{updateSuccessful: true}] is printed. *)
Theorem update_exit_behaviour :
  forall (update_repository : update_repository_args -> call_result)
         (i : update_invocation),
    passes_option_validation i = true ->
    exists a,
      update_calls (fst (process (invoke_update update_repository i))) = [a] /\
      match update_repository a with
      | Returns =>
          snd (process (invoke_update update_repository i)) = 0 /\
          (flag_format_output i = true ->
           In (JsonDumps [("updateSuccessful", JBool true)])
              (printed (fst (process (invoke_update update_repository i)))))
      | Raises e =>
          if flag_format_output i
          then
            snd (process (invoke_update update_repository i)) = 0 /\
            In (JsonDumps [("updateSuccessful", JBool false);
                           ("error", JStr (str e))])
               (printed (fst (process (invoke_update update_repository i))))
          else
            snd (process (invoke_update update_repository i)) <> 0 /\
            forall d,
              ~ In (JsonDumps d)
                   (printed (fst (process (invoke_update update_repository i))))
      end.
Proof.
  intros ur i Hpass.
  destruct (invoke_update_passes ur i Hpass) as [t [_ [_ Heq]]].
  rewrite Heq. unfold after_validation, process.
  exists (update_args (converted i (value t)) t).
  destruct (ur (update_args (converted i (value t)) t)) as [|e];
    destruct (flag_format_output i); destruct (flag_profile i); cbn;
    (split; [reflexivity|]).
  all: try (split; [reflexivity|]).
  all: try (intros _; tauto).
  all: try tauto.
  all: try (intros H; discriminate H).
  all: split; [destruct e; cbn; discriminate|].
  all: intros d H; cbn in H; intuition discriminate.
Qed.

Lemma update_exit_behaviour_witness :
  passes_option_validation structured_invocation = true /\
  exists a,
    update_calls (fst (process (invoke_update rejecting_updater
                                  structured_invocation))) = [a] /\
    match rejecting_updater a with
    | Returns =>
        snd (process (invoke_update rejecting_updater structured_invocation)) = 0
        /\ (flag_format_output structured_invocation = true ->
            In (JsonDumps [("updateSuccessful", JBool true)])
               (printed (fst (process (invoke_update rejecting_updater
                                         structured_invocation)))))
    | Raises e =>
        if flag_format_output structured_invocation
        then
          snd (process (invoke_update rejecting_updater structured_invocation)) = 0
          /\ In (JsonDumps [("updateSuccessful", JBool false);
                            ("error", JStr (str e))])
                (printed (fst (process (invoke_update rejecting_updater
                                          structured_invocation))))
        else
          snd (process (invoke_update rejecting_updater structured_invocation))
          <> 0 /\
          forall d,
            ~ In (JsonDumps d)
                 (printed (fst (process (invoke_update rejecting_updater
                                           structured_invocation))))
    end.
Proof.
  split; [reflexivity|].
  apply (update_exit_behaviour rejecting_updater structured_invocation).
  reflexivity.
Defined.

(** The calls [update] makes to the updater, read off its parameters. *)
Lemma update_calls_update
  (update_repository : update_repository_args -> call_result)
  (p : update_params) :
  update_calls (fst (update update_repository p)) =
  match clients_auth_path p, clients_library_dir p with
  | None, None => []
  | _, _ =>
      match UpdateType_of (expected_repo_type p) with
      | Some t => [update_args p t]
      | None => []
      end
  end.
Proof.
  assert (Htry : update_calls
                   (fst (try_update update_repository p
                           (profiling_setup (profile p)))) =
                 match UpdateType_of (expected_repo_type p) with
                 | Some t => [update_args p t]
                 | None => []
                 end).
  { unfold try_update, on_exception.
    destruct (UpdateType_of (expected_repo_type p)) as [t|].
    - destruct (update_repository (update_args p t));
        destruct (format_output p); cbn [fst];
        rewrite ?update_calls_app, update_calls_profiling_setup; reflexivity.
    - destruct (format_output p); cbn [fst];
        rewrite ?update_calls_app, update_calls_profiling_setup; reflexivity. }
  unfold update.
  destruct (clients_auth_path p), (clients_library_dir p);
    try exact Htry; reflexivity.
Qed.

Lemma update_calls_process (r : run) :
  update_calls (fst (process r)) = update_calls (fst r).
Proof.
  unfold process. cbn [fst].
  rewrite update_calls_app, update_calls_at_exit, app_nil_r. reflexivity.
Qed.

(** C5.  An invocation of [update] that passes option validation calls
    [update_repository] exactly once, with the given url, and never calls
    [validate_repository]; every invocation of [validate] calls
    [validate_repository] exactly once, with the given clients-auth-path,
    and never calls [update_repository]. *)
Theorem commands_call_updater_once :
  forall (update_repository : update_repository_args -> call_result)
         (validate_repository : validate_repository_args -> call_result)
         (i : update_invocation) (v : validate_invocation),
    passes_option_validation i = true ->
    (exists a,
        update_calls (fst (process (invoke_update update_repository i))) = [a]
        /\ ur_url a = arg_url i) /\
    validate_calls (fst (process (invoke_update update_repository i))) = [] /\
    (exists b,
        validate_calls (fst (process (invoke_validate validate_repository v)))
        = [b]
        /\ vr_clients_auth_path b = arg_clients_auth_path v) /\
    update_calls (fst (process (invoke_validate validate_repository v))) = [].
Proof.
  intros ur vr i v Hpass.
  destruct (invoke_update_passes ur i Hpass) as [t [_ [_ Heq]]].
  rewrite Heq. unfold after_validation, process.
  split; [|split; [|split]].
  - exists (update_args (converted i (value t)) t). split; [|reflexivity].
    destruct (ur (update_args (converted i (value t)) t));
      destruct (flag_format_output i); destruct (flag_profile i); reflexivity.
  - destruct (ur (update_args (converted i (value t)) t));
      destruct (flag_format_output i); destruct (flag_profile i); reflexivity.
  - unfold invoke_validate, validate. cbn.
    eexists. split; reflexivity.
  - reflexivity.
Qed.

Lemma commands_call_updater_once_witness :
  passes_option_validation structured_invocation = true /\
  (exists a,
      update_calls (fst (process (invoke_update accepting_updater
                                    structured_invocation))) = [a]
      /\ ur_url a = arg_url structured_invocation) /\
  validate_calls (fst (process (invoke_update accepting_updater
                                  structured_invocation))) = [] /\
  (exists b,
      validate_calls (fst (process (invoke_validate accepting_validator
                                      plain_validation))) = [b]
      /\ vr_clients_auth_path b = arg_clients_auth_path plain_validation) /\
  update_calls (fst (process (invoke_validate accepting_validator
                                plain_validation))) = [].
Proof.
  split; [reflexivity|].
  apply (commands_call_updater_once accepting_updater accepting_validator
           structured_invocation plain_validation).
  reflexivity.
Defined.

(** C6.  [--expected-repo-type] is accepted exactly when it is [test],
    [official] or [either], and is [either] when omitted; with any other
    value the command fails with a non-zero status and an empty trace, so
    [update_repository] is not called; with an accepted value every call of
    [update_repository] carries [UpdateType(expected_repo_type)], and such a
    call is made as soon as one of the two locations is given. *)
Theorem expected_repo_type_choice :
  forall (update_repository : update_repository_args -> call_result)
         (i : update_invocation),
    (Choice expected_repo_type_choices
            (with_default "either" (opt_expected_repo_type i))
     = Some (with_default "either" (opt_expected_repo_type i))
     <-> with_default "either" (opt_expected_repo_type i) = "test" \/
         with_default "either" (opt_expected_repo_type i) = "official" \/
         with_default "either" (opt_expected_repo_type i) = "either") /\
    (opt_expected_repo_type i = None ->
     with_default "either" (opt_expected_repo_type i) = "either") /\
    (Choice expected_repo_type_choices
            (with_default "either" (opt_expected_repo_type i)) = None ->
     process (invoke_update update_repository i) = ([], 2)) /\
    (forall a,
        In a (update_calls (fst (process (invoke_update update_repository i))))
        -> UpdateType_of (with_default "either" (opt_expected_repo_type i))
           = Some (ur_expected_repo_type a)) /\
    (passes_option_validation i = true ->
     exists a,
       update_calls (fst (process (invoke_update update_repository i))) = [a]
       /\ UpdateType_of (with_default "either" (opt_expected_repo_type i))
          = Some (ur_expected_repo_type a)).
Proof.
  intros ur i. split; [apply Choice_spec|]. split; [intros ->; reflexivity|].
  split; [|split].
  - intros Hnone. unfold invoke_update. rewrite Hnone. reflexivity.
  - intros a. rewrite update_calls_process. unfold invoke_update.
    destruct (Choice expected_repo_type_choices
                (with_default "either" (opt_expected_repo_type i)))
      as [t|] eqn:Hc; [|intros []].
    destruct (Choice_some _ _ _ Hc) as [-> _].
    rewrite update_calls_update.
    cbn [clients_auth_path clients_library_dir expected_repo_type converted].
    destruct (UpdateType_of (with_default "either" (opt_expected_repo_type i)))
      as [ty|];
      destruct (opt_clients_auth_path i), (opt_clients_library_dir i);
      cbn; intros H; try contradiction;
      destruct H as [<-|[]]; reflexivity.
  - intros Hpass.
    destruct (invoke_update_passes ur i Hpass) as [t [Ht [_ Heq]]].
    exists (update_args (converted i (value t)) t).
    rewrite update_calls_process, Heq. unfold after_validation.
    split; [|exact Ht].
    destruct (ur (update_args (converted i (value t)) t));
      destruct (flag_format_output i); cbn [fst];
      rewrite ?update_calls_app, update_calls_profiling_setup; reflexivity.
Qed.

(** C9.  When both [--clients-auth-path] and [--clients-library-dir] are
    omitted, the callback raises [UsageError] with an empty trace: nothing is
    printed, the profiler is not set up and [update_repository] is not
    called; the command ends in a usage error with a non-zero status. *)
Theorem update_requires_a_location :
  forall (update_repository : update_repository_args -> call_result)
         (i : update_invocation),
    opt_clients_auth_path i = None ->
    opt_clients_library_dir i = None ->
    (forall t, update update_repository (converted i t)
               = ([], Raised (UsageError usage_message))) /\
    fst (process (invoke_update update_repository i)) = [] /\
    update_calls (fst (process (invoke_update update_repository i))) = [] /\
    is_usage_error (snd (invoke_update update_repository i)) = true /\
    snd (process (invoke_update update_repository i)) = 2.
Proof.
  intros ur i Ha Hl.
  assert (Hup : forall t, update ur (converted i t)
                          = ([], Raised (UsageError usage_message))).
  { intros t. unfold update.
    cbn [clients_auth_path clients_library_dir converted].
    rewrite Ha, Hl. reflexivity. }
  split; [exact Hup|].
  unfold invoke_update.
  destruct (Choice expected_repo_type_choices
              (with_default "either" (opt_expected_repo_type i))) as [t|].
  - rewrite Hup. repeat split.
  - repeat split.
Qed.

Lemma update_requires_a_location_witness :
  opt_clients_auth_path bare_invocation = None /\
  opt_clients_library_dir bare_invocation = None /\
  (forall t, update accepting_updater (converted bare_invocation t)
             = ([], Raised (UsageError usage_message))) /\
  fst (process (invoke_update accepting_updater bare_invocation)) = [] /\
  update_calls (fst (process (invoke_update accepting_updater bare_invocation)))
  = [] /\
  is_usage_error (snd (invoke_update accepting_updater bare_invocation)) = true
  /\ snd (process (invoke_update accepting_updater bare_invocation)) = 2.
Proof.
  split; [reflexivity|]. split; [reflexivity|].
  apply (update_requires_a_location accepting_updater bare_invocation);
    reflexivity.
Defined.

(** C10.  Two runs of [update] that differ only in [--profile] and
    [--format-output] make the same calls to [update_repository], with the
    same arguments. *)
Theorem flags_do_not_reach_updater :
  forall (update_repository : update_repository_args -> call_result)
         (i : update_invocation) (profile1 format1 profile2 format2 : bool),
    update_calls
      (fst (process (invoke_update update_repository
                       (with_flags i profile1 format1))))
    = update_calls
        (fst (process (invoke_update update_repository
                         (with_flags i profile2 format2)))).
Proof.
  intros ur i p1 f1 p2 f2. rewrite !update_calls_process.
  unfold invoke_update. cbn [opt_expected_repo_type with_flags].
  destruct (Choice expected_repo_type_choices
              (with_default "either" (opt_expected_repo_type i))) as [t|];
    [|reflexivity].
  rewrite !update_calls_update. reflexivity.
Qed.

(** * Properties of the protocol components *)

Import Layout TrustChain Orchestrator.

Lemma parent_snoc (p : path) (x : string) : parent (p ++ [x]) = p.
Proof. unfold parent. apply removelast_last. Qed.

Lemma name_snoc (p : path) (x : string) : name (p ++ [x]) = x.
Proof. unfold name. apply last_last. Qed.

(** C7.  Without overrides the root directory is the path two levels up
    from the authentication repository and the namespace is the name of the
    directory that contains it: for a repository at [root/ns/repo] they are
    [root] and [ns].  An explicit library directory or namespace replaces
    the derived value, whatever the path is. *)
Theorem layout_defaults_and_overrides :
  forall (root auth d : path) (ns repo n : string)
         (lib : option path) (nso : option string),
    resolve (root ++ [ns; repo]) None None
    = {| root_dir := root; namespace := ns |} /\
    root_dir (resolve auth None nso) = parent (parent auth) /\
    namespace (resolve auth lib None) = name (parent auth) /\
    root_dir (resolve auth (Some d) nso) = d /\
    namespace (resolve auth lib (Some n)) = n /\
    resolveTargetPath (resolve (root ++ [ns; repo]) None None) [ns; repo]
    = root ++ [ns; repo].
Proof.
  intros root auth d ns repo n lib nso.
  assert (Hp : parent (root ++ [ns; repo]) = root ++ [ns]).
  { change (root ++ [ns; repo]) with (root ++ [ns] ++ [repo]).
    rewrite app_assoc. apply parent_snoc. }
  unfold resolve, resolveTargetPath. cbn [root_dir namespace].
  rewrite Hp, parent_snoc, name_snoc. repeat split.
Qed.

Section ChainFacts.

Context {collaborators : Collaborators}.




(** The state machine of a commit, phase by phase. *)
Lemma validate_commit_phases (t : Trusted) (c : Commit)
  (gs : list Generation) :
  parsed c = Some gs ->
  validate_commit t c =
  advance (first_failure (check_signatures t) gs)
    (advance (first_failure (check_version t) gs)
       (advance (first_failure (check_expiry c) gs)
          (advance (first_failure (check_crossref gs) gs) TRUSTED))).
Proof.
  intros Hload. unfold validate_commit. rewrite Hload. cbn [steps step].
  destruct (first_failure (check_signatures t) gs); cbn; [reflexivity|].
  destruct (first_failure (check_version t) gs); cbn; [reflexivity|].
  destruct (first_failure (check_expiry c) gs); cbn; [reflexivity|].
  destruct (first_failure (check_crossref gs) gs); cbn; reflexivity.
Qed.

(** Five transitions always bring the machine to a final state. *)
Lemma validate_commit_final (t : Trusted) (c : Commit) :
  validate_commit t c = TRUSTED \/
  exists r, validate_commit t c = REJECTED r.
Proof.
  destruct (parsed c) as [gs|] eqn:Hload.
  - rewrite (validate_commit_phases t c gs Hload).
    destruct (first_failure (check_signatures t) gs); cbn; [eauto|].
    destruct (first_failure (check_version t) gs); cbn; [eauto|].
    destruct (first_failure (check_expiry c) gs); cbn; [eauto|].
    destruct (first_failure (check_crossref gs) gs); cbn; eauto.
  - right. exists MalformedMetadata. unfold validate_commit.
    rewrite Hload. reflexivity.
Qed.


(** A chain without rejection has evaluated every commit. *)
Lemma validate_chain_all_trusted (cs : list Commit) :
  forall (t : Trusted) (last : option CommitId),
    rejection (validate_chain t last cs) = None ->
    evaluated (validate_chain t last cs) = map c_id cs.
Proof.
  induction cs as [|c cs IH]; intros t last; cbn [validate_chain map].
  - reflexivity.
  - destruct (validate_commit t c) eqn:Hv;
      destruct (parsed c) as [gs|]; cbn; try discriminate.
    intros H. rewrite (IH _ _ H). reflexivity.
Qed.


End ChainFacts.












Lemma failures_nil (rs : list (TargetName * option TargetFailure)) :
  failures rs = [] <-> (forall n res, In (n, res) rs -> res = None).
Proof.
  induction rs as [|[n [f|]] rs IH]; cbn [failures].
  - split; [intros _ n res []|reflexivity].
  - split; [discriminate|]. intros H.
    specialize (H n (Some f) (or_introl eq_refl)). discriminate.
  - rewrite IH. split.
    + intros H n' res [Heq|Hin]; [inversion Heq; reflexivity|eauto].
    + intros H n' res Hin. apply (H n'). right; exact Hin.
Qed.

(** C2.  A session changes the durable local state only by accepting: when
    the outcome is a rejection, when the chain of commits is rejected at
    some commit (also after earlier commits were trusted), or when a target
    repository fails validation, the state after the session is the state
    before it; and when the state differs, the session was accepted, no
    commit of the chain was rejected, every target repository of the
    descriptor validated, and the pointer is the last commit of the chain. *)
Theorem pointer_advances_only_on_success :
  forall (collaborators : Collaborators) (target_files : TargetFiles)
         (local : Local) (s : Session),
    (forall why, outcome (run local s) = Rejected why ->
                 state (run local s) = local) /\
    (rejection (validate_chain (last_known_trusted s) (trusted_pointer local)
                               (enumerate local s)) <> None ->
     state (run local s) = local /\
     exists why, outcome (run local s) = Rejected why) /\
    (forall c n f,
        last_trusted (validate_chain (last_known_trusted s)
                        (trusted_pointer local) (enumerate local s)) = Some c ->
        In (n, Some f) (map (check_entry s c) (descriptor_at c)) ->
        state (run local s) = local /\
        exists why, outcome (run local s) = Rejected why) /\
    (state (run local s) <> local ->
     exists c rs,
       outcome (run local s) = Accepted c rs /\
       rejection (validate_chain (last_known_trusted s) (trusted_pointer local)
                                 (enumerate local s)) = None /\
       last_trusted (validate_chain (last_known_trusted s)
                       (trusted_pointer local) (enumerate local s)) = Some c /\
       rs = map (check_entry s c) (descriptor_at c) /\
       (forall n res, In (n, res) rs -> res = None) /\
       state (run local s) =
       {| trusted_pointer := Some c;
          trusted_generation :=
            trusted (validate_chain (last_known_trusted s)
                       (trusted_pointer local) (enumerate local s)) |}).
Proof.
  intros collaborators target_files local s. unfold run.
  destruct (rejection (validate_chain (last_known_trusted s)
                         (trusted_pointer local) (enumerate local s)))
    as [[c0 reason]|] eqn:Hrej.
  { cbn. repeat split; eauto; try congruence. }
  destruct (last_trusted (validate_chain (last_known_trusted s)
                            (trusted_pointer local) (enumerate local s)))
    as [c|] eqn:Hlast.
  2:{ cbn. repeat split; eauto; try congruence. }
  destruct (failures (map (check_entry s c) (descriptor_at c)))
    as [|f0 fs] eqn:Hfail.
  - unfold finish. destruct (mode s); cbn.
    + split; [discriminate|]. split; [congruence|]. split.
      * intros c' n f Hc' Hin. inversion Hc'; subst c'.
        rewrite failures_nil in Hfail. specialize (Hfail n (Some f) Hin).
        discriminate.
      * intros _. exists c, (map (check_entry s c) (descriptor_at c)).
        repeat split. apply failures_nil. exact Hfail.
    + split; [discriminate|]. split; [congruence|]. split.
      * intros c' n f Hc' Hin. inversion Hc'; subst c'.
        rewrite failures_nil in Hfail. specialize (Hfail n (Some f) Hin).
        discriminate.
      * congruence.
  - cbn. repeat split; eauto; try congruence.
Qed.

(** C8.  A validate-only run does no clone, fetch or merge and leaves the
    local state as it was, whatever its outcome; when it accepts a commit,
    running it again over the same commits accepts the same commit with the
    same per-repository results, again without I/O or change of state. *)
Theorem validate_only_idempotent :
  forall (collaborators : Collaborators) (target_files : TargetFiles)
         (local : Local) (s : Session) (from_commit : option CommitId)
         (c : CommitId) (rs : list (TargetName * option TargetFailure)),
    mode s = ValidateOnly from_commit ->
    outcome (run local s) = Accepted c rs ->
    io (run local s) = [] /\
    state (run local s) = local /\
    outcome (run (state (run local s)) s) = Accepted c rs /\
    io (run (state (run local s)) s) = [] /\
    state (run (state (run local s)) s) = state (run local s).
Proof.
  intros collaborators target_files local s from_commit c rs Hmode Hacc.
  assert (Hpure : forall l, io (run l s) = [] /\ state (run l s) = l).
  { intros l. unfold run, obtain, fetch_targets, finish. rewrite Hmode.
    destruct (rejection _) as [[c0 reason]|]; [split; reflexivity|].
    destruct (last_trusted _); [|split; reflexivity].
    destruct (failures _); split; reflexivity. }
  destruct (Hpure local) as [Hio Hstate].
  split; [exact Hio|]. split; [exact Hstate|].
  rewrite Hstate. split; [exact Hacc|]. split; [exact Hio|exact Hstate].
Qed.

Lemma validate_only_idempotent_witness :
  mode (session_of (ValidateOnly None) [cA]) = ValidateOnly None /\
  outcome (run (collaborators := toy) (target_files := toy_files) local0
               (session_of (ValidateOnly None) [cA]))
  = Accepted "A" [(("ns", "repo1"), None)] /\
  io (run (collaborators := toy) (target_files := toy_files) local0
          (session_of (ValidateOnly None) [cA])) = [] /\
  state (run (collaborators := toy) (target_files := toy_files) local0
             (session_of (ValidateOnly None) [cA])) = local0 /\
  outcome (run (collaborators := toy) (target_files := toy_files)
               (state (run (collaborators := toy) (target_files := toy_files)
                           local0 (session_of (ValidateOnly None) [cA])))
               (session_of (ValidateOnly None) [cA]))
  = Accepted "A" [(("ns", "repo1"), None)] /\
  io (run (collaborators := toy) (target_files := toy_files)
          (state (run (collaborators := toy) (target_files := toy_files)
                      local0 (session_of (ValidateOnly None) [cA])))
          (session_of (ValidateOnly None) [cA])) = [] /\
  state (run (collaborators := toy) (target_files := toy_files)
             (state (run (collaborators := toy) (target_files := toy_files)
                         local0 (session_of (ValidateOnly None) [cA])))
             (session_of (ValidateOnly None) [cA]))
  = state (run (collaborators := toy) (target_files := toy_files) local0
               (session_of (ValidateOnly None) [cA])).
Proof.
  split; [reflexivity|]. split; [reflexivity|].
  apply (validate_only_idempotent toy toy_files local0
           (session_of (ValidateOnly None) [cA]) None "A"
           [(("ns", "repo1"), None)]); reflexivity.
Defined.

(** An update session over commit A is accepted and moves the pointer to A;
    over A followed by B, whose targets document keeps its version, it is
    rejected and the local state stays as it was. *)
Example update_session_runs :
  state (run (collaborators := toy) (target_files := toy_files) local0
             (session_of UpdateRun [cA]))
  = {| trusted_pointer := Some "A"; trusted_generation := gensA |} /\
  run (collaborators := toy) (target_files := toy_files) local0
      (session_of UpdateRun [cA; cB])
  = {| outcome := Rejected (ChainRejected "B" RollbackDetected);
       state := local0;
       io := [Clone "https://example.org/ns/auth.git"] |}.
Proof. split; reflexivity. Qed.

(** * Further properties of the commands *)

Import Observe.

(** An invocation that fails option validation does nothing besides
    raising a usage error. *)
Lemma invoke_update_fails
  (update_repository : update_repository_args -> call_result)
  (i : update_invocation) :
  passes_option_validation i = false ->
  fst (invoke_update update_repository i) = [] /\
  is_usage_error (snd (invoke_update update_repository i)) = true.
Proof.
  unfold passes_option_validation, invoke_update, Choice. intros H.
  destruct (existsb _ expected_repo_type_choices); [|split; reflexivity].
  cbn [andb] in H. unfold update.
  cbn [clients_auth_path clients_library_dir converted].
  destruct (opt_clients_auth_path i), (opt_clients_library_dir i);
    try discriminate H.
  split; reflexivity.
Qed.



(** With a callee that returns or raises an [Exception] the two embeddings
    of [update] agree. *)
Lemma update_without_escapes
  (update_repository : update_repository_args -> call_result)
  (i : update_invocation) :
  Interrupts.invoke_update
    (fun a => Interrupts.Completes (update_repository a)) i
  = Interrupts.ends (invoke_update update_repository i).
Proof.
  unfold Interrupts.invoke_update, invoke_update.
  destruct (Choice expected_repo_type_choices
              (with_default "either" (opt_expected_repo_type i))) as [t|];
    [|reflexivity].
  unfold Interrupts.update, update.
  destruct (clients_auth_path (converted i t)),
    (clients_library_dir (converted i t)); try reflexivity;
    unfold Interrupts.try_update, try_update;
    destruct (UpdateType_of (expected_repo_type (converted i t)));
    try reflexivity;
    destruct (update_repository _); try reflexivity;
    destruct (format_output (converted i t)); reflexivity.
Qed.

Lemma interruptible_update_passes
  (update_repository : update_repository_args -> Interrupts.call_outcome)
  (i : update_invocation) :
  passes_option_validation i = true ->
  exists t,
    value t = with_default "either" (opt_expected_repo_type i) /\
    Interrupts.invoke_update update_repository i
    = Interrupts.after_validation update_repository i t.
Proof.
  unfold passes_option_validation. intros H.
  apply andb_prop in H. destruct H as [Hc Hl].
  destruct (UpdateType_of_choice _ Hc) as [t [Ht Hv]].
  exists t. split; [exact Hv|].
  unfold Interrupts.invoke_update, Choice. rewrite Hc, <- Hv.
  rewrite <- Hv in Ht.
  assert (Htry : Interrupts.try_update update_repository
                   (converted i (value t)) (profiling_setup (flag_profile i))
                 = Interrupts.after_validation update_repository i t).
  { unfold Interrupts.try_update, Interrupts.after_validation, on_exception,
      Interrupts.ends.
    cbn [expected_repo_type converted format_output profile]. rewrite Ht.
    destruct (update_repository (update_args (converted i (value t)) t))
      as [[|e]|b]; destruct (flag_format_output i); reflexivity. }
  unfold Interrupts.update.
  cbn [clients_auth_path clients_library_dir converted].
  destruct (opt_clients_auth_path i), (opt_clients_library_dir i);
    try exact Htry; discriminate.
Qed.

Lemma interruptible_update_fails
  (update_repository : update_repository_args -> Interrupts.call_outcome)
  (i : update_invocation) :
  passes_option_validation i = false ->
  fst (Interrupts.invoke_update update_repository i) = [] /\
  exists r,
    snd (Interrupts.invoke_update update_repository i) = Interrupts.Ends r /\
    is_usage_error r = true.
Proof.
  unfold passes_option_validation, Interrupts.invoke_update, Choice.
  intros H.
  destruct (existsb _ expected_repo_type_choices);
    [|split; [reflexivity|eexists; split; reflexivity]].
  cbn [andb] in H. unfold Interrupts.update.
  cbn [clients_auth_path clients_library_dir converted].
  destruct (opt_clients_auth_path i), (opt_clients_library_dir i);
    try discriminate H.
  split; [reflexivity|eexists; split; reflexivity].
Qed.

Lemma update_calls_after_validation
  (update_repository : update_repository_args -> Interrupts.call_outcome)
  (i : update_invocation) (t : UpdateType) :
  update_calls (fst (Interrupts.after_validation update_repository i t))
  = [update_args (converted i (value t)) t].
Proof.
  unfold Interrupts.after_validation.
  destruct (update_repository _) as [r|b]; [destruct (flag_format_output i)|];
    cbn [fst]; rewrite ?update_calls_app, update_calls_profiling_setup;
    reflexivity.
Qed.


(** X2.  With [--format-output], once option validation has passed: when
    [update_repository] returns or raises an [Exception], the callback
    returns and what the process prints is one JSON payload,
    [{updateSuccessful: true}] or [{updateSuccessful: false, error: str(e)}],
    alone without [--profile] and between the two lines of the profiler
    with it; when the call lets a [BaseException] through (a
    [KeyboardInterrupt], a [SystemExit]), it leaves the callback too and no
    payload is printed. *)
Theorem structured_output_is_one_payload :
  forall (update_repository : update_repository_args ->
                              Interrupts.call_outcome)
         (i : update_invocation),
    passes_option_validation i = true ->
    flag_format_output i = true ->
    exists a,
      update_calls (fst (Interrupts.invoke_update update_repository i)) = [a]
      /\
      match update_repository a with
      | Interrupts.Completes r =>
          snd (Interrupts.invoke_update update_repository i)
          = Interrupts.Ends Returned /\
          printed (fst (Interrupts.process
                          (Interrupts.invoke_update update_repository i))) =
          (if flag_profile i then [Text "Profiling..."] else []) ++
          [JsonDumps (payload r)] ++
          (if flag_profile i then [Text "Profiling completed"] else [])
      | Interrupts.Escapes b =>
          snd (Interrupts.invoke_update update_repository i)
          = Interrupts.Escaped b /\
          printed (fst (Interrupts.process
                          (Interrupts.invoke_update update_repository i))) =
          (if flag_profile i then [Text "Profiling..."] else []) ++
          (if flag_profile i then [Text "Profiling completed"] else [])
      end.
Proof.
  intros ur i Hpass Hfmt.
  destruct (interruptible_update_passes ur i Hpass) as [t [_ Heq]].
  rewrite Heq, update_calls_after_validation.
  exists (update_args (converted i (value t)) t). split; [reflexivity|].
  unfold Interrupts.after_validation, Interrupts.process. rewrite Hfmt.
  destruct (ur (update_args (converted i (value t)) t)) as [r|b];
    destruct (flag_profile i); split; reflexivity.
Qed.

Lemma structured_output_is_one_payload_witness :
  passes_option_validation (located_invocation false true) = true /\
  flag_format_output (located_invocation false true) = true /\
  exists a,
    update_calls (fst (Interrupts.invoke_update Interrupts.failing_updater
                         (located_invocation false true))) = [a] /\
    match Interrupts.failing_updater a with
    | Interrupts.Completes r =>
        snd (Interrupts.invoke_update Interrupts.failing_updater
               (located_invocation false true))
        = Interrupts.Ends Returned /\
        printed (fst (Interrupts.process
                        (Interrupts.invoke_update Interrupts.failing_updater
                           (located_invocation false true)))) =
        (if flag_profile (located_invocation false true)
         then [Text "Profiling..."] else []) ++
        [JsonDumps (payload r)] ++
        (if flag_profile (located_invocation false true)
         then [Text "Profiling completed"] else [])
    | Interrupts.Escapes b =>
        snd (Interrupts.invoke_update Interrupts.failing_updater
               (located_invocation false true))
        = Interrupts.Escaped b /\
        printed (fst (Interrupts.process
                        (Interrupts.invoke_update Interrupts.failing_updater
                           (located_invocation false true)))) =
        (if flag_profile (located_invocation false true)
         then [Text "Profiling..."] else []) ++
        (if flag_profile (located_invocation false true)
         then [Text "Profiling completed"] else [])
    end.
Proof.
  split; [reflexivity|]. split; [reflexivity|].
  apply (structured_output_is_one_payload Interrupts.failing_updater
           (located_invocation false true)); reflexivity.
Defined.

(** X3.  Without [--format-output], once option validation has passed, the
    callback ends as [update_repository] does: it returns when the call
    returns and raises the same exception when the call raises; no JSON
    payload is printed. *)
Theorem plain_output_passes_result_through :
  forall (update_repository : update_repository_args -> call_result)
         (i : update_invocation),
    passes_option_validation i = true ->
    flag_format_output i = false ->
    exists a,
      update_calls (fst (invoke_update update_repository i)) = [a] /\
      snd (invoke_update update_repository i)
      = result_of (update_repository a) /\
      filter is_json
             (printed (fst (process (invoke_update update_repository i))))
      = [].
Proof.
  intros ur i Hpass Hfmt.
  destruct (invoke_update_passes ur i Hpass) as [t [_ [_ Heq]]].
  rewrite Heq. unfold after_validation, process. rewrite Hfmt.
  exists (update_args (converted i (value t)) t).
  destruct (ur (update_args (converted i (value t)) t));
    destruct (flag_profile i); repeat split.
Qed.

Lemma plain_output_passes_result_through_witness :
  passes_option_validation (located_invocation true false) = true /\
  flag_format_output (located_invocation true false) = false /\
  exists a,
    update_calls (fst (invoke_update Examples.rejecting_updater
                         (located_invocation true false))) = [a] /\
    snd (invoke_update Examples.rejecting_updater
           (located_invocation true false))
    = result_of (Examples.rejecting_updater a) /\
    filter is_json
           (printed (fst (process (invoke_update Examples.rejecting_updater
                                     (located_invocation true false)))))
    = [].
Proof.
  split; [reflexivity|]. split; [reflexivity|].
  apply (plain_output_passes_result_through Examples.rejecting_updater
           (located_invocation true false)); reflexivity.
Defined.

(** X4.  With [--profile], once option validation has passed, the profiler
    is enabled and the exit function registered before [update_repository]
    is called, and when the interpreter ends the profiler is disabled and
    the statistics are written to [updater.prof], whether the update
    succeeded or not; nothing between the call and the end touches the
    profiler. *)
Theorem profiler_brackets_the_call :
  forall (update_repository : update_repository_args -> call_result)
         (i : update_invocation),
    passes_option_validation i = true ->
    flag_profile i = true ->
    exists a rest,
      fst (process (invoke_update update_repository i)) =
      [Print (Text "Profiling..."); ProfilerEnable; AtexitRegister;
       CallUpdateRepository a] ++ rest ++
      [ProfilerDisable; Print (Text "Profiling completed");
       DumpStats "updater.prof"] /\
      filter is_profiler_event rest = [] /\
      update_calls rest = [].
Proof.
  intros ur i Hpass Hprof.
  destruct (invoke_update_passes ur i Hpass) as [t [_ [_ Heq]]].
  rewrite Heq. unfold after_validation, process. rewrite Hprof.
  exists (update_args (converted i (value t)) t).
  destruct (ur (update_args (converted i (value t)) t)) as [|e];
    destruct (flag_format_output i); cbn.
  - exists [Print (JsonDumps success_data)]. repeat split.
  - exists []. repeat split.
  - exists [Print (JsonDumps (error_data e))]. repeat split.
  - exists []. repeat split.
Qed.

Lemma profiler_brackets_the_call_witness :
  passes_option_validation (located_invocation true false) = true /\
  flag_profile (located_invocation true false) = true /\
  exists a rest,
    fst (process (invoke_update Examples.rejecting_updater
                    (located_invocation true false))) =
    [Print (Text "Profiling..."); ProfilerEnable; AtexitRegister;
     CallUpdateRepository a] ++ rest ++
    [ProfilerDisable; Print (Text "Profiling completed");
     DumpStats "updater.prof"] /\
    filter is_profiler_event rest = [] /\
    update_calls rest = [].
Proof.
  split; [reflexivity|]. split; [reflexivity|].
  apply (profiler_brackets_the_call Examples.rejecting_updater
           (located_invocation true false)); reflexivity.
Defined.

(** X5.  Without [--profile] no run of [update] touches the profiler or
    writes [updater.prof], and the only thing it can print is the JSON
    payload; this holds for every command line, valid or not, and for
    every behaviour of [update_repository]. *)
Theorem no_profile_no_profiler :
  forall (update_repository : update_repository_args -> call_result)
         (i : update_invocation),
    flag_profile i = false ->
    filter is_profiler_event
           (fst (process (invoke_update update_repository i))) = [] /\
    filter (fun o => negb (is_json o))
           (printed (fst (process (invoke_update update_repository i)))) = [].
Proof.
  intros ur i Hprof. destruct (passes_option_validation i) eqn:Hpass.
  - destruct (invoke_update_passes ur i Hpass) as [t [_ [_ Heq]]].
    rewrite Heq. unfold after_validation, process. rewrite Hprof.
    destruct (ur (update_args (converted i (value t)) t));
      destruct (flag_format_output i); split; reflexivity.
  - destruct (invoke_update_fails ur i Hpass) as [Htr _].
    unfold process. rewrite Htr. split; reflexivity.
Qed.

Lemma no_profile_no_profiler_witness :
  flag_profile (located_invocation false true) = false /\
  filter is_profiler_event
         (fst (process (invoke_update Examples.rejecting_updater
                          (located_invocation false true)))) = [] /\
  filter (fun o => negb (is_json o))
         (printed (fst (process (invoke_update Examples.rejecting_updater
                                   (located_invocation false true))))) = [].
Proof.
  split; [reflexivity|].
  apply (no_profile_no_profiler Examples.rejecting_updater
           (located_invocation false true)); reflexivity.
Defined.

(** X6.  What leaves [update] comes from one of two places.  An
    [Exception] that leaves it is either a usage error raised before
    anything was done (empty trace, option validation failed), or the very
    exception [update_repository] raised, and then [--format-output] is not
    set.  A [BaseException] that leaves it is the one [update_repository]
    let through, with or without [--format-output].  The command raises
    nothing of its own after the call. *)
Theorem raised_exception_origin :
  forall (update_repository : update_repository_args ->
                              Interrupts.call_outcome)
         (i : update_invocation),
    (forall e,
        snd (Interrupts.invoke_update update_repository i)
        = Interrupts.Ends (Raised e) ->
        (passes_option_validation i = false /\
         fst (Interrupts.invoke_update update_repository i) = [] /\
         is_usage_error (Raised e) = true) \/
        (passes_option_validation i = true /\
         flag_format_output i = false /\
         exists a,
           update_calls (fst (Interrupts.invoke_update update_repository i))
           = [a] /\
           update_repository a = Interrupts.Completes (Raises e))) /\
    (forall b,
        snd (Interrupts.invoke_update update_repository i)
        = Interrupts.Escaped b ->
        passes_option_validation i = true /\
        exists a,
          update_calls (fst (Interrupts.invoke_update update_repository i))
          = [a] /\
          update_repository a = Interrupts.Escapes b).
Proof.
  intros ur i. destruct (passes_option_validation i) eqn:Hpass.
  - destruct (interruptible_update_passes ur i Hpass) as [t [_ Heq]].
    rewrite Heq, update_calls_after_validation.
    unfold Interrupts.after_validation.
    set (a := update_args (converted i (value t)) t).
    destruct (ur a) as [[|e0]|b0] eqn:Hur;
      destruct (flag_format_output i); cbn [snd]; split;
      try (intros e H; discriminate H); try (intros b H; discriminate H).
    + intros e H. inversion H; subst e0. right.
      split; [reflexivity|]. split; [reflexivity|].
      exists a. split; [reflexivity|exact Hur].
    + intros b H. inversion H; subst b0. split; [reflexivity|].
      exists a. split; [reflexivity|exact Hur].
    + intros b H. inversion H; subst b0. split; [reflexivity|].
      exists a. split; [reflexivity|exact Hur].
  - destruct (interruptible_update_fails ur i Hpass) as [Htr [r [Hr Hue]]].
    rewrite Hr. split.
    + intros e H. inversion H; subst r. left.
      split; [reflexivity|]. split; assumption.
    + intros b H. discriminate H.
Qed.

(** A [KeyboardInterrupt] inside [update_repository] with
    [--format-output]: the call was made, nothing is printed and the exit
    status is 1. *)
Example interrupted_structured_update :
  Interrupts.process
    (Interrupts.invoke_update Interrupts.interrupted_updater
       (located_invocation false true))
  = ([CallUpdateRepository
        (update_args (converted (located_invocation false true) "test") TEST)],
     1).
Proof. reflexivity. Qed.

(** X7.  Once option validation has passed, [update_repository] receives
    the url, the two locations, the [--from-fs] flag and the scripts root
    directory as given (an omitted option as [None]), the branch [main] when
    [--default-branch] is omitted, and the member of [UpdateType] whose value
    is the given repository type, [either] when it is omitted. *)
Theorem update_forwards_options :
  forall (update_repository : update_repository_args -> call_result)
         (i : update_invocation),
    passes_option_validation i = true ->
    exists a,
      update_calls (fst (invoke_update update_repository i)) = [a] /\
      ur_url a = arg_url i /\
      ur_clients_auth_path a = opt_clients_auth_path i /\
      ur_clients_library_dir a = opt_clients_library_dir i /\
      ur_default_branch a = match opt_default_branch i with
                            | Some b => b
                            | None => "main"
                            end /\
      ur_from_fs a = flag_from_fs i /\
      value (ur_expected_repo_type a) = match opt_expected_repo_type i with
                                        | Some t => t
                                        | None => "either"
                                        end /\
      ur_scripts_root_dir a = opt_scripts_root_dir i.
Proof.
  intros ur i Hpass.
  destruct (invoke_update_passes ur i Hpass) as [t [_ [Hv Heq]]].
  rewrite Heq. unfold after_validation.
  exists (update_args (converted i (value t)) t). split.
  - destruct (ur (update_args (converted i (value t)) t));
      destruct (flag_format_output i); cbn [fst];
      rewrite ?update_calls_app, update_calls_profiling_setup; reflexivity.
  - cbn. rewrite Hv. unfold with_default.
    destruct (opt_default_branch i), (opt_expected_repo_type i);
      repeat split.
Qed.

Lemma update_forwards_options_witness :
  passes_option_validation (located_invocation false false) = true /\
  exists a,
    update_calls (fst (invoke_update Examples.accepting_updater
                         (located_invocation false false))) = [a] /\
    ur_url a = arg_url (located_invocation false false) /\
    ur_clients_auth_path a
    = opt_clients_auth_path (located_invocation false false) /\
    ur_clients_library_dir a
    = opt_clients_library_dir (located_invocation false false) /\
    ur_default_branch a
    = match opt_default_branch (located_invocation false false) with
      | Some b => b
      | None => "main"
      end /\
    ur_from_fs a = flag_from_fs (located_invocation false false) /\
    value (ur_expected_repo_type a)
    = match opt_expected_repo_type (located_invocation false false) with
      | Some t => t
      | None => "either"
      end /\
    ur_scripts_root_dir a
    = opt_scripts_root_dir (located_invocation false false).
Proof.
  split; [reflexivity|].
  apply (update_forwards_options Examples.accepting_updater
           (located_invocation false false)); reflexivity.
Defined.

(** X8.  When the [update] callback is called directly with a location and
    a repository type that is not a member of [UpdateType], the lookup fails
    inside the [try] block: [update_repository] is not called, and the
    [ValueError] is raised without [format_output] and reported in the
    failure payload with it. *)
Theorem direct_call_with_non_member :
  forall (update_repository : update_repository_args -> call_result)
         (p : update_params),
    (clients_auth_path p <> None \/ clients_library_dir p <> None) ->
    UpdateType_of (expected_repo_type p) = None ->
    update_calls (fst (update update_repository p)) = [] /\
    if format_output p
    then
      snd (update update_repository p) = Returned /\
      exists m,
        printed (fst (update update_repository p)) =
        (if profile p then [Text "Profiling..."] else []) ++
        [JsonDumps [("updateSuccessful", JBool false); ("error", JStr m)]]
    else
      exists m, snd (update update_repository p) = Raised (ValueError m).
Proof.
  intros ur p Hloc Hnone. rewrite update_calls_update, Hnone.
  assert (Hup : update ur p
                = on_exception p (profiling_setup (profile p))
                    (not_a_member (expected_repo_type p))).
  { unfold update, try_update. rewrite Hnone.
    destruct (clients_auth_path p), (clients_library_dir p);
      try reflexivity.
    destruct Hloc as [H|H]; exfalso; apply H; reflexivity. }
  split.
  - destruct (clients_auth_path p), (clients_library_dir p); reflexivity.
  - rewrite Hup. unfold on_exception, not_a_member.
    destruct (format_output p); cbn [fst snd].
    + split; [reflexivity|]. eexists.
      destruct (profile p); reflexivity.
    + eexists. reflexivity.
Qed.

Lemma direct_call_with_non_member_witness :
  (clients_auth_path (direct_params true) <> None \/
   clients_library_dir (direct_params true) <> None) /\
  UpdateType_of (expected_repo_type (direct_params true)) = None /\
  update_calls (fst (update Examples.accepting_updater (direct_params true)))
  = [] /\
  if format_output (direct_params true)
  then
    snd (update Examples.accepting_updater (direct_params true)) = Returned /\
    exists m,
      printed (fst (update Examples.accepting_updater (direct_params true))) =
      (if profile (direct_params true) then [Text "Profiling..."] else []) ++
      [JsonDumps [("updateSuccessful", JBool false); ("error", JStr m)]]
  else
    exists m,
      snd (update Examples.accepting_updater (direct_params true))
      = Raised (ValueError m).
Proof.
  split; [left; discriminate|]. split; [reflexivity|].
  apply (direct_call_with_non_member Examples.accepting_updater
           (direct_params true)).
  - left; discriminate.
  - reflexivity.
Defined.


(** X10.  The arguments [initialize] passes to [init_repo] are, in order,
    those [generate_repositories_json] passes for the same options, the
    [--add-branch] flag, those [create] passes after the path (the keystore
    before the keys description), and the scheme, which is
    [DEFAULT_RSA_SIGNATURE_SCHEME] when [--scheme] is omitted. *)
Theorem initialize_combines_options :
  forall (scheme : string) (i : Developer.initialize_invocation),
    Developer.initialize_args scheme i =
    Developer.generate_args (Developer.generate_part i) ++
    [Developer.VBool (Developer.i_add_branch i)] ++
    tl (Developer.create_args (Developer.create_part i)) ++
    [Developer.VStr match Developer.i_scheme i with
                    | Some s => s
                    | None => scheme
                    end] /\
    tl (Developer.create_args (Developer.create_part i)) =
    [Developer.of_option (Developer.i_keystore i);
     Developer.of_option (Developer.i_keys_description i);
     Developer.VBool (Developer.i_commit i);
     Developer.VBool (Developer.i_test i)].
Proof.
  intros scheme i. unfold Developer.initialize_args, with_default.
  destruct (Developer.i_scheme i); split; reflexivity.
Qed.
